(** * Region tree (quadtree) of src/App.js: a shallow embedding

    The JavaScript class [QuadTree] and its helper [intersects] are translated
    function by function.  Mutation of a node ([this.points.push],
    [this.children.push]) is modelled by explicit state passing: a method that
    mutates its receiver returns the new receiver next to its result.

    Numbers.  Coordinates are JavaScript numbers.  They are modelled as exact
    rationals [Q]: the only arithmetic of the class is the midpoint
    [(left + right) / 2], which is exact on the canvas of the application
    (0..600 by 0..400, at most eight halvings), and every comparison of the
    class is an order comparison, which [Qle_bool] decides exactly.
    [maxItems] and [depth] are natural numbers, as in every call of the
    constructor in the application (defaults 1 and 8). *)

From Stdlib Require Import QArith Lqa List Bool Arith Lia String Permutation.
Import ListNotations.
Open Scope Q_scope.

(** ** Data model *)

(** A point literal [{ x, y }]. *)
Record Point : Type := mkPoint { x : Q; y : Q }.

(** A bounds (or range) literal [{ left, top, right, bottom }]. *)
Record Bounds : Type := mkBounds { left : Q; top : Q; right : Q; bottom : Q }.

(** [intersects] is called with points and with bounds in its first argument:
    [insert] passes a point, [queryRange] passes the range, [findCommonPoints]
    passes [this.bounds].  A JavaScript object is therefore either of the two
    literals of the program. *)
Inductive JsObject : Type :=
| ObjPoint (p : Point)
| ObjBounds (b : Bounds).

Coercion ObjPoint : Point >-> JsObject.
Coercion ObjBounds : Bounds >-> JsObject.

(** Property reads.  Reading a property that the object literal does not have
    yields [undefined], modelled by [None]. *)
Definition prop_x (o : JsObject) : option Q :=
  match o with ObjPoint p => Some (x p) | ObjBounds _ => None end.
Definition prop_y (o : JsObject) : option Q :=
  match o with ObjPoint p => Some (y p) | ObjBounds _ => None end.
Definition prop_left (o : JsObject) : option Q :=
  match o with ObjBounds b => Some (left b) | ObjPoint _ => None end.
Definition prop_top (o : JsObject) : option Q :=
  match o with ObjBounds b => Some (top b) | ObjPoint _ => None end.
Definition prop_right (o : JsObject) : option Q :=
  match o with ObjBounds b => Some (right b) | ObjPoint _ => None end.
Definition prop_bottom (o : JsObject) : option Q :=
  match o with ObjBounds b => Some (bottom b) | ObjPoint _ => None end.

(** The relational operators [<=] and [>=] of JavaScript: [undefined] converts
    to NaN, and every comparison with NaN is false. *)
Definition js_le (a b : option Q) : bool :=
  match a, b with
  | Some u, Some v => Qle_bool u v
  | _, _ => false
  end.
Definition js_ge (a b : option Q) : bool := js_le b a.

(** [const intersects = (point, bounds) => ...] (App.js, lines 4-7). *)
Definition intersects (point bounds : JsObject) : bool :=
  js_ge (prop_x point) (prop_left bounds) && js_le (prop_x point) (prop_right bounds) &&
  js_ge (prop_y point) (prop_top bounds) && js_le (prop_y point) (prop_bottom bounds).

(** A node of the tree: the five fields set by the constructor. *)
#[warnings="-register-all"]
Inductive QuadTree : Type :=
  Node { bounds : Bounds;
         maxItems : nat;
         depth : nat;
         points : list Point;
         children : list QuadTree }.

(** The outcome of evaluating a [new] expression: a value, or a thrown error
    with its message. *)
Inductive completion (A : Type) : Type :=
| Normal (a : A)
| Throw (message : string).
Arguments Normal {A} a.
Arguments Throw {A} message.

(** [constructor(bounds, maxItems = 1, depth = 8)] (lines 24-30): the body is
    five assignments. *)
Definition new_QuadTree (bounds : Bounds) (maxItems depth : nat) : QuadTree :=
  Node bounds maxItems depth [] [].

(** The constructor has no [throw] statement and no validation; it completes
    normally on every argument. *)
Definition construct (bounds : Bounds) (maxItems depth : nat) : completion QuadTree :=
  Normal (new_QuadTree bounds maxItems depth).

Definition default_maxItems : nat := 1%nat.
Definition default_depth : nat := 8%nat.

(** ** Subdivision *)

Definition midX (b : Bounds) : Q := (left b + right b) / 2.
Definition midY (b : Bounds) : Q := (top b + bottom b) / 2.

(** The bounds of the four children pushed by [subdivide] (lines 58-61), in
    the order of the four [push] calls. *)
Definition topLeft (b : Bounds) : Bounds := mkBounds (left b) (top b) (midX b) (midY b).
Definition topRight (b : Bounds) : Bounds := mkBounds (midX b) (top b) (right b) (midY b).
Definition bottomLeft (b : Bounds) : Bounds := mkBounds (left b) (midY b) (midX b) (bottom b).
Definition bottomRight (b : Bounds) : Bounds := mkBounds (midX b) (midY b) (right b) (bottom b).

Definition quadrants (b : Bounds) : list Bounds :=
  [topLeft b; topRight b; bottomLeft b; bottomRight b].

(** [subdivide()] (lines 49-62). *)
Definition subdivide (t : QuadTree) : QuadTree :=
  if (0 <? List.length (children t))%nat || (depth t =? 0)%nat then t
  else
    Node (bounds t) (maxItems t) (depth t) (points t)
         (children t ++
          map (fun b => new_QuadTree b (maxItems t) (depth t - 1)) (quadrants (bounds t))).

(** ** Insertion *)

(** [this.children.some(child => child.insert(point))]: the children are tried
    in order and the iteration stops at the first one that returns true.  Every
    child that was tried is replaced by its state after the call. *)
Fixpoint some_insert (f : QuadTree -> bool * QuadTree) (cs : list QuadTree)
  : bool * list QuadTree :=
  match cs with
  | [] => (false, [])
  | c :: rest =>
      let (r, c') := f c in
      if r then (true, c' :: rest)
      else let (r', rest') := some_insert f rest in (r', c' :: rest')
  end.

(** [insert(point)] (lines 32-47), with a bound on the number of nested calls. *)
Fixpoint insert_fuel (fuel : nat) (point : Point) (t : QuadTree) : bool * QuadTree :=
  match fuel with
  | O => (false, t)
  | S fuel' =>
      if negb (intersects point (bounds t)) then (false, t)
      else if (List.length (points t) <? maxItems t)%nat && (0 <? depth t)%nat then
        (true, Node (bounds t) (maxItems t) (depth t) (points t ++ [point]) (children t))
      else
        let t1 := if (List.length (children t) =? 0)%nat then subdivide t else t in
        let (r, cs') := some_insert (insert_fuel fuel' point) (children t1) in
        (r, Node (bounds t1) (maxItems t1) (depth t1) (points t1) cs')
  end.

(** The nesting of [insert] calls below a node is bounded by its remaining
    depth plus the nodes that already hang below it. *)
Fixpoint weight (t : QuadTree) : nat :=
  match t with
  | Node _ _ d _ cs => (d + fold_right (fun c n => S (weight c + n)) 0 cs)%nat
  end.

Definition insert (point : Point) (t : QuadTree) : bool * QuadTree :=
  insert_fuel (S (weight t)) point t.

(** [allPoints.forEach(point => tree.insert(point))] (lines 260-266): the
    results are ignored. *)
Definition insert_all (ps : list Point) (t : QuadTree) : QuadTree :=
  fold_left (fun t p => snd (insert p t)) ps t.

(** The same loop, keeping the result of every call. *)
Fixpoint insert_results (ps : list Point) (t : QuadTree) : list bool * QuadTree :=
  match ps with
  | [] => ([], t)
  | p :: rest =>
      let (r, t') := insert p t in
      let (rs, t'') := insert_results rest t' in
      (r :: rs, t'')
  end.

(** ** Queries *)

(** [queryRange(range, found = [])] (lines 64-80); [found] is the accumulator
    array, [push] appends at its end. *)
Fixpoint queryRange (range : JsObject) (found : list Point) (t : QuadTree) {struct t}
  : list Point :=
  match t with
  | Node b _ _ ps cs =>
      if negb (intersects range b) then found
      else
        let found1 :=
          fold_left (fun acc (point : Point) =>
                       if intersects point range then acc ++ [point] else acc)
                    ps found in
        fold_left (fun acc child => queryRange range acc child) cs found1
  end.

(** [findCommonPoints(otherQuadTree, commonPoints = [])] (lines 103-119). *)
Fixpoint findCommonPoints (otherQuadTree : QuadTree) (commonPoints : list Point)
         (this : QuadTree) {struct this} : list Point :=
  match this with
  | Node b _ _ ps cs =>
      if negb (intersects b (bounds otherQuadTree)) then commonPoints
      else
        let common1 :=
          fold_left
            (fun acc (point : Point) =>
               if (0 <? List.length
                          (queryRange (mkBounds (x point) (y point) (x point) (y point))
                                      [] otherQuadTree))%nat
               then acc ++ [point] else acc)
            ps commonPoints in
        fold_left (fun acc child => findCommonPoints otherQuadTree acc child) cs common1
  end.

(** ** Vocabulary of the properties *)

(** The canvas of the application: [{ left: 0, top: 0, right: 600, bottom: 400 }]. *)
Definition quadTreeBounds : Bounds := mkBounds 0 0 600 400.

(** Well-formed bounds: left <= right and top <= bottom. *)
Definition well_formed (b : Bounds) : bool :=
  Qle_bool (left b) (right b) && Qle_bool (top b) (bottom b).

(** A point lies within bounds, all four edges included. *)
Definition within (p : Point) (b : Bounds) : Prop :=
  left b <= x p /\ x p <= right b /\ top b <= y p /\ y p <= bottom b.

(** Two points have identical coordinates. *)
Definition same_coords (p q : Point) : Prop := x p == x q /\ y p == y q.

(** The points stored anywhere in a tree, a node's own points first, then its
    children's in order. *)
Fixpoint all_points (t : QuadTree) : list Point :=
  match t with
  | Node _ _ _ ps cs => ps ++ flat_map all_points cs
  end.

(** [node_of n t]: [n] is [t] or a node below [t]. *)
Inductive node_of (n : QuadTree) : QuadTree -> Prop :=
| node_self : node_of n n
| node_child t c : In c (children t) -> node_of n c -> node_of n t.

(** The children that [insert] delegates to, after the lazy subdivision of
    lines 41-43. *)
Definition delegates (t : QuadTree) : list QuadTree :=
  children (if (List.length (children t) =? 0)%nat then subdivide t else t).

(** The shape of the trees that the class builds: bounds are well formed, a
    node has no children or the four quadrants of its bounds in the order of
    [subdivide], with the same threshold and one level of depth less. *)
Inductive shaped : QuadTree -> Prop :=
| shaped_leaf b m d ps :
    well_formed b = true -> shaped (Node b m d ps [])
| shaped_split b m d ps c1 c2 c3 c4 :
    well_formed b = true ->
    (0 < d)%nat ->
    map bounds [c1; c2; c3; c4] = quadrants b ->
    Forall (fun c => maxItems c = m /\ depth c = (d - 1)%nat) [c1; c2; c3; c4] ->
    shaped c1 -> shaped c2 -> shaped c3 -> shaped c4 ->
    shaped (Node b m d ps [c1; c2; c3; c4]).

(** What one call of [insert] keeps of a node: its three configuration fields,
    and the shape if the node had it. *)
Definition kept (c c' : QuadTree) : Prop :=
  bounds c' = bounds c /\ maxItems c' = maxItems c /\ depth c' = depth c /\
  (shaped c -> shaped c').

(** What a rejected [insert] leaves of a tree: every node keeps its fields and
    its own points; a node keeps its children, each related in the same way, or
    it had none and gets children that hold no point. *)
#[warnings="-register-all"]
Inductive keeps_points : QuadTree -> QuadTree -> Prop :=
| keeps_node b m d ps cs cs' :
    Forall2 keeps_points cs cs' ->
    keeps_points (Node b m d ps cs) (Node b m d ps cs')
| keeps_grown b m d ps cs' :
    Forall (fun c => all_points c = []) cs' ->
    keeps_points (Node b m d ps []) (Node b m d ps cs').


(** ** The rest of the class and the helpers around it *)


(** The calls and property assignments that [draw] and [drawCommonPoints]
    make on the 2-D canvas context, in the order they are made. *)
Inductive CanvasCall : Type :=
| SetStrokeStyle (style : string)
| StrokeRect (rx ry w h : Q)
| SetFillStyle (style : string)
| BeginPath
| Arc (cx cy radius startAngle endAngle : Q)
| Fill
| FillRect (rx ry w h : Q).


(** [drawCommonPoints(commonPoints)] (lines 203-209), on the same log. *)
Definition drawCommonPoints (commonPoints : list Point) (ctx : list CanvasCall)
  : list CanvasCall :=
  if (List.length commonPoints =? 0)%nat then ctx
  else
    fold_left (fun ctx point => ctx ++ [FillRect (x point - 2) (y point - 2) 4 4])
              commonPoints (ctx ++ [SetFillStyle "#FFA500"]).

(** The strict comparisons [a > b] and [a < b] on numbers. *)
Definition js_gt (a b : Q) : bool := negb (Qle_bool a b).
Definition js_lt (a b : Q) : bool := negb (Qle_bool b a).

(** The test of one edge in [isPointInPolygon] (lines 16-17), for the vertices
    [polygon[i]] and [polygon[j]].  The quotient is only looked at when the
    first conjunct holds, which makes its divisor different from zero. *)
Definition edge_intersect (point vi vj : Point) : bool :=
  negb (Bool.eqb (js_gt (y vi) (y point)) (js_gt (y vj) (y point))) &&
  js_lt (x point)
        ((x vj - x vi) * (y point - y vi) / (y vj - y vi) + x vi).

(** The [for] loop of [isPointInPolygon] (line 12): [remaining] iterations are
    left, [i] and [j] are the two loop variables, [j = i++] is the update.
    [polygon[i]] is read with a default that is never used: both indices stay
    below the length. *)
Fixpoint polygon_loop (point : Point) (polygon : list Point)
         (remaining i j : nat) (inside : bool) : bool :=
  match remaining with
  | O => inside
  | S remaining' =>
      let vi := nth i polygon (mkPoint 0 0) in
      let vj := nth j polygon (mkPoint 0 0) in
      polygon_loop point polygon remaining' (S i) i
                   (if edge_intersect point vi vj then negb inside else inside)
  end.

(** [isPointInPolygon(point, polygon)] (lines 9-21). *)
Definition isPointInPolygon (point : Point) (polygon : list Point) : bool :=
  polygon_loop point polygon (List.length polygon) 0 (List.length polygon - 1) false.

(** ** More vocabulary *)

(** A property of the four own fields of a node holds at every node of a tree. *)
Definition every_node (P : Bounds -> nat -> nat -> list Point -> Prop) (t : QuadTree) : Prop :=
  forall n, node_of n t -> P (bounds n) (maxItems n) (depth n) (points n).

(** The number of levels of a tree. *)
Fixpoint height (t : QuadTree) : nat :=
  match t with
  | Node _ _ _ _ cs => S (fold_right (fun c n => Nat.max (height c) n) 0%nat cs)
  end.

(** The number of nodes that can store points in a tree of remaining depth
    [d]: one per level above the last, four times as many at each level. *)
Fixpoint storing_nodes (d : nat) : nat :=
  match d with
  | O => 0
  | S d' => 1 + 4 * storing_nodes d'
  end.

(** The points of a list whose insert returned true. *)
Fixpoint accepted (ps : list Point) (results : list bool) : list Point :=
  match ps, results with
  | p :: ps', r :: rs' => if r then p :: accepted ps' rs' else accepted ps' rs'
  | _, _ => []
  end.


(** The parity of the number of edges that pass the test, along a list of
    vertices that starts after the vertex [prev]. *)
Fixpoint edge_parity (point prev : Point) (vs : list Point) : bool :=
  match vs with
  | [] => false
  | v :: vs' => xorb (edge_intersect point v prev) (edge_parity point v vs')
  end.

(** * Properties *)

(** ** The recursive equation of [insert] *)

Lemma some_insert_ext (f g : QuadTree -> bool * QuadTree) (cs : list QuadTree) :
  (forall c, In c cs -> f c = g c) -> some_insert f cs = some_insert g cs.
Proof.
  induction cs as [|c rest IH]; intros Hfg; simpl; [reflexivity|].
  rewrite <- (Hfg c) by (now left).
  rewrite IH by (intros c' Hc'; apply Hfg; now right).
  reflexivity.
Qed.

Lemma weight_child (c : QuadTree) (cs : list QuadTree) :
  In c cs -> (weight c < fold_right (fun c n => S (weight c + n)) 0 cs)%nat.
Proof.
  induction cs as [|c' rest IH]; simpl; [tauto|].
  intros [->|Hin]; [lia|]. specialize (IH Hin). lia.
Qed.

Lemma weight_children (t c : QuadTree) : In c (children t) -> (weight c < weight t)%nat.
Proof.
  destruct t as [b m d ps cs]; simpl. intros Hin.
  pose proof (weight_child c cs Hin). lia.
Qed.

Lemma weight_new (b : Bounds) (m d : nat) : weight (new_QuadTree b m d) = d.
Proof. simpl. lia. Qed.

Lemma weight_delegates (t c : QuadTree) : In c (delegates t) -> (weight c < weight t)%nat.
Proof.
  unfold delegates. destruct t as [b m d ps cs].
  destruct cs as [|c0 cs]; simpl.
  - unfold subdivide; simpl. destruct d as [|d]; simpl; [tauto|].
    rewrite Nat.sub_0_r.
    intros [<-|[<-|[<-|[<-|[]]]]]; rewrite weight_new; lia.
  - intros Hin. pose proof (weight_child c (c0 :: cs) Hin) as Hw. simpl in Hw. lia.
Qed.

Lemma insert_fuel_stable (p : Point) (n : nat) :
  forall (m : nat) (t : QuadTree),
    (weight t < n)%nat -> (weight t < m)%nat -> insert_fuel n p t = insert_fuel m p t.
Proof.
  induction n as [|n IH]; intros m t Hn Hm; [lia|].
  destruct m as [|m]; [lia|]. simpl.
  destruct (negb (intersects p (bounds t))); [reflexivity|].
  destruct ((List.length (points t) <? maxItems t)%nat && (0 <? depth t)%nat); [reflexivity|].
  fold (delegates t).
  rewrite (some_insert_ext (insert_fuel n p) (insert_fuel m p)); [reflexivity|].
  intros c Hc. pose proof (weight_delegates t c Hc). apply IH; lia.
Qed.

(** [insert] satisfies the equation that the source text of the method reads
    as; in particular it is a total function. *)
Lemma insert_eq (point : Point) (t : QuadTree) :
  insert point t =
  if negb (intersects point (bounds t)) then (false, t)
  else if (List.length (points t) <? maxItems t)%nat && (0 <? depth t)%nat then
    (true, Node (bounds t) (maxItems t) (depth t) (points t ++ [point]) (children t))
  else
    let t1 := if (List.length (children t) =? 0)%nat then subdivide t else t in
    let (r, cs') := some_insert (insert point) (children t1) in
    (r, Node (bounds t1) (maxItems t1) (depth t1) (points t1) cs').
Proof.
  unfold insert at 1. simpl.
  destruct (negb (intersects point (bounds t))); [reflexivity|].
  destruct ((List.length (points t) <? maxItems t)%nat && (0 <? depth t)%nat); [reflexivity|].
  fold (delegates t).
  rewrite (some_insert_ext (insert_fuel (weight t) point) (insert point)); [reflexivity|].
  intros c Hc. pose proof (weight_delegates t c Hc). unfold insert.
  apply insert_fuel_stable; lia.
Qed.

(** ** The containment test *)

(** On a point and a bounds, [intersects] is containment with all four edges
    included. *)
Lemma intersects_within (p : Point) (b : Bounds) :
  intersects p b = true <-> within p b.
Proof.
  unfold intersects, within, js_ge, js_le; simpl.
  rewrite !andb_true_iff, !Qle_bool_iff. tauto.
Qed.

(** A bounds literal has no [x] property: [range.x >= bounds.left] compares
    [undefined] and is false, whatever the second argument is. *)
Lemma intersects_bounds_first (range : Bounds) (o : JsObject) :
  intersects range o = false.
Proof. unfold intersects, js_ge, js_le; simpl. destruct (prop_left o); reflexivity. Qed.

Lemma malformed_contains_nothing (p : Point) (b : Bounds) :
  well_formed b = false -> intersects p b = false.
Proof.
  intros Hb. destruct (intersects p b) eqn:Hi; [|reflexivity].
  apply intersects_within in Hi. destruct Hi as (H1 & H2 & H3 & H4).
  assert (Hw : well_formed b = true).
  { unfold well_formed. rewrite andb_true_iff, !Qle_bool_iff. split; lra. }
  congruence.
Qed.

Lemma insert_outside (p : Point) (t : QuadTree) :
  intersects p (bounds t) = false -> insert p t = (false, t).
Proof. intros H. rewrite insert_eq, H. reflexivity. Qed.

(** ** Queries with a rectangle *)

Lemma queryRange_bounds_range (range : Bounds) (found : list Point) (t : QuadTree) :
  queryRange range found t = found.
Proof.
  destruct t as [b m d ps cs]. cbn [queryRange].
  rewrite intersects_bounds_first. reflexivity.
Qed.

Lemma findCommonPoints_unchanged (other this : QuadTree) (commonPoints : list Point) :
  findCommonPoints other commonPoints this = commonPoints.
Proof.
  destruct this as [b m d ps cs]. cbn [findCommonPoints].
  rewrite intersects_bounds_first. reflexivity.
Qed.

(** C1: [findCommonPoints] is claimed to return the points of the receiver
    whose coordinates also occur in the other tree.  The code returns its
    accumulator untouched on every pair of trees, because the pruning test
    [intersects(this.bounds, otherQuadTree.bounds)] reads [x] and [y] of a
    bounds object.  With A holding (100,100) and B holding (100,100) and
    (200,200), both built on the canvas with the default parameters, the
    result is empty although (100,100) is stored in both trees. *)
Theorem findCommonPoints_drops_shared_point :
  let A := insert_all [mkPoint 100 100]
                      (new_QuadTree quadTreeBounds default_maxItems default_depth) in
  let B := insert_all [mkPoint 100 100; mkPoint 200 200]
                      (new_QuadTree quadTreeBounds default_maxItems default_depth) in
  In (mkPoint 100 100) (all_points A) /\
  (exists q, In q (all_points B) /\ same_coords (mkPoint 100 100) q) /\
  findCommonPoints B [] A = [] /\
  (forall other this : QuadTree, findCommonPoints other [] this = []).
Proof.
  intros A B. split; [|split; [|split]].
  - vm_compute. left. reflexivity.
  - exists (mkPoint 100 100). split; [vm_compute; left; reflexivity|].
    split; reflexivity.
  - apply findCommonPoints_unchanged.
  - intros other this. apply findCommonPoints_unchanged.
Qed.

(** C2: [queryRange] is claimed to return exactly the inserted points that lie
    within the rectangle.  The code returns its accumulator untouched for every
    rectangle, because the pruning test [intersects(range, this.bounds)] reads
    [x] and [y] of the range.  On the canvas tree holding (10,10), the query
    with the whole canvas returns nothing. *)
Theorem queryRange_misses_inserted_point :
  let t := new_QuadTree quadTreeBounds default_maxItems default_depth in
  well_formed quadTreeBounds = true /\
  fst (insert (mkPoint 10 10) t) = true /\
  within (mkPoint 10 10) quadTreeBounds /\
  queryRange quadTreeBounds [] (snd (insert (mkPoint 10 10) t)) = [] /\
  (forall (range : Bounds) (found : list Point) (t : QuadTree),
      queryRange range found t = found).
Proof.
  repeat split; try (vm_compute; congruence).
  intros range found t. apply queryRange_bounds_range.
Qed.

(** C6: on a fresh canvas tree with maxItems 1 and depth 8, both inserts of
    (10,10) return true and both copies are stored, the second one in the
    top-left child; the query with the whole canvas nevertheless returns the
    empty sequence, not the two copies. *)
Theorem duplicate_insert_then_query :
  let t0 := new_QuadTree quadTreeBounds 1 8 in
  let r := insert_results [mkPoint 10 10; mkPoint 10 10] t0 in
  fst r = [true; true] /\
  all_points (snd r) = [mkPoint 10 10; mkPoint 10 10] /\
  queryRange quadTreeBounds [] (snd r) = [].
Proof. repeat split; vm_compute; reflexivity. Qed.

(** C5: a point that is not within the bounds of the node is rejected with
    [false], the node is left as it was and nothing is thrown ([insert] is a
    total function); containment includes all four edges; on a fresh canvas
    tree with the default parameters (600,400) is accepted and (601,400) is
    rejected. *)
Theorem insert_out_of_bounds_returns_false :
  (forall (p : Point) (t : QuadTree),
      intersects p (bounds t) = false -> insert p t = (false, t)) /\
  (forall (p : Point) (b : Bounds),
      intersects p b = true <->
      left b <= x p /\ x p <= right b /\ top b <= y p /\ y p <= bottom b) /\
  fst (insert (mkPoint 600 400)
              (new_QuadTree quadTreeBounds default_maxItems default_depth)) = true /\
  fst (insert (mkPoint 601 400)
              (new_QuadTree quadTreeBounds default_maxItems default_depth)) = false.
Proof.
  split; [exact insert_outside|].
  split; [exact intersects_within|].
  split; vm_compute; reflexivity.
Qed.

Lemma insert_out_of_bounds_returns_false_witness :
  insert (mkPoint 601 400) (new_QuadTree quadTreeBounds 1 8)
  = (false, new_QuadTree quadTreeBounds 1 8).
Proof.
  apply (proj1 insert_out_of_bounds_returns_false (mkPoint 601 400)
               (new_QuadTree quadTreeBounds 1 8)).
  reflexivity.
Defined.

(** ** Nodes without remaining depth *)

Lemma insert_depth_zero (t : QuadTree) (p : Point) :
  depth t = 0%nat -> children t = [] -> insert p t = (false, t).
Proof.
  intros Hd Hc. rewrite insert_eq.
  destruct (negb (intersects p (bounds t))); [reflexivity|].
  rewrite Hd, Hc. simpl. rewrite andb_false_r.
  unfold subdivide. rewrite Hd, Hc. simpl.
  destruct t; simpl in *; subst; reflexivity.
Qed.

(** C3 as stated fails: the empty canvas node with depth 0 rejects (10,10),
    which lies within its bounds. *)
Lemma depth_zero_insert_fails :
  let t := new_QuadTree quadTreeBounds 1 0 in
  depth t = 0%nat /\ points t = [] /\
  intersects (mkPoint 10 10) (bounds t) = true /\
  fst (insert (mkPoint 10 10) t) = false.
Proof. repeat split; vm_compute; reflexivity. Qed.

(** ** Construction *)

(** C7, as the code has it: the constructor validates nothing.  On every
    bounds it completes normally with a node that has these bounds, no points
    and no children; when the bounds are malformed the node rejects every
    insert and stays as it is. *)
Theorem construct_never_fails (b : Bounds) (m d : nat) :
  construct b m d = Normal (Node b m d [] []) /\
  (well_formed b = false ->
   forall p : Point, insert p (new_QuadTree b m d) = (false, new_QuadTree b m d)).
Proof.
  split; [reflexivity|].
  intros Hb p. apply insert_outside. simpl. now apply malformed_contains_nothing.
Qed.

Lemma construct_never_fails_witness :
  insert (mkPoint 5 5) (new_QuadTree (mkBounds 10 0 0 10) 1 8)
  = (false, new_QuadTree (mkBounds 10 0 0 10) 1 8).
Proof.
  apply (proj2 (construct_never_fails (mkBounds 10 0 0 10) 1 8)).
  reflexivity.
Defined.

(** C7 as stated fails: with left = 10 > right = 0 the constructor does not
    throw, it returns a node. *)
Lemma construct_malformed_completes :
  well_formed (mkBounds 10 0 0 10) = false /\
  construct (mkBounds 10 0 0 10) default_maxItems default_depth
  = Normal (Node (mkBounds 10 0 0 10) 1 8 [] []) /\
  (forall message : string,
      construct (mkBounds 10 0 0 10) default_maxItems default_depth <> Throw message).
Proof. repeat split. intros message H. discriminate H. Qed.

(** ** Geometry of the four quadrants *)

Lemma half_mul (q : Q) : q / 2 == q * (1 # 2).
Proof. unfold Qdiv. reflexivity. Qed.

Lemma midX_half (b : Bounds) : midX b == (left b + right b) * (1 # 2).
Proof. apply half_mul. Qed.

Lemma midY_half (b : Bounds) : midY b == (top b + bottom b) * (1 # 2).
Proof. apply half_mul. Qed.

Lemma well_formed_le (b : Bounds) :
  well_formed b = true <-> left b <= right b /\ top b <= bottom b.
Proof. unfold well_formed. rewrite andb_true_iff, !Qle_bool_iff. tauto. Qed.

(** Brings the two midpoints of [b] into the context as linear facts. *)
Ltac mids b :=
  pose proof (midX_half b); pose proof (midY_half b);
  generalize dependent (midX b); generalize dependent (midY b); intros.

Lemma quadrants_well_formed (b : Bounds) :
  well_formed b = true ->
  Forall (fun q => well_formed q = true) (quadrants b).
Proof.
  intros Hb. apply well_formed_le in Hb. destruct Hb as [Hx Hy].
  unfold quadrants, topLeft, topRight, bottomLeft, bottomRight.
  repeat constructor; apply well_formed_le; simpl; mids b; split; lra.
Qed.



(** ** The shape is an invariant of [insert] *)

Lemma shaped_new (b : Bounds) (m d : nat) :
  well_formed b = true -> shaped (new_QuadTree b m d).
Proof. intros Hb. now apply shaped_leaf. Qed.

Lemma shaped_well_formed (t : QuadTree) : shaped t -> well_formed (bounds t) = true.
Proof. intros H; destruct H; assumption. Qed.

Lemma shaped_child (t c : QuadTree) : shaped t -> In c (children t) -> shaped c.
Proof.
  intros H; destruct H; simpl; [tauto|].
  intros [<-|[<-|[<-|[<-|[]]]]]; assumption.
Qed.

Lemma shaped_node_of (n t : QuadTree) : node_of n t -> shaped t -> shaped n.
Proof.
  induction 1 as [|t c Hin _ IH]; intros Ht; [assumption|].
  apply IH. now apply (shaped_child t).
Qed.

Lemma shaped_subdivide (t : QuadTree) : shaped t -> shaped (subdivide t).
Proof.
  intros Ht. unfold subdivide.
  destruct ((0 <? List.length (children t))%nat || (depth t =? 0)%nat) eqn:Hc;
    [assumption|].
  apply orb_false_iff in Hc. destruct Hc as [Hlen Hd].
  apply Nat.ltb_ge in Hlen. apply Nat.eqb_neq in Hd.
  pose proof (shaped_well_formed t Ht) as Hb.
  destruct t as [b m d ps cs]; simpl in *.
  destruct cs; [|simpl in Hlen; lia]. simpl.
  pose proof (quadrants_well_formed b Hb) as Hq.
  unfold quadrants in Hq.
  inversion_clear Hq as [|? ? H1 Hq1]. inversion_clear Hq1 as [|? ? H2 Hq2].
  inversion_clear Hq2 as [|? ? H3 Hq3]. inversion_clear Hq3 as [|? ? H4 _].
  apply shaped_split; try (now apply shaped_leaf); try assumption; try lia.
  - reflexivity.
  - repeat constructor.
Qed.

Lemma kept_refl (c : QuadTree) : kept c c.
Proof. unfold kept. tauto. Qed.

Lemma Forall2_same {A : Type} (R : A -> A -> Prop) (l : list A) :
  (forall a, R a a) -> Forall2 R l l.
Proof. intros HR. induction l; constructor; auto. Qed.

(** The children after the [some] loop correspond one to one to the children
    before it, each either untouched or the state left by its own call. *)
Lemma some_insert_Forall2 (R : QuadTree -> QuadTree -> Prop)
      (f : QuadTree -> bool * QuadTree) (cs : list QuadTree) :
  (forall c, R c c) ->
  (forall c, In c cs -> R c (snd (f c))) ->
  Forall2 R cs (snd (some_insert f cs)).
Proof.
  intros Hrefl. induction cs as [|c rest IH]; intros Hf; simpl; [constructor|].
  pose proof (Hf c (or_introl eq_refl)) as Hc.
  destruct (f c) as [r c']. simpl in Hc. destruct r; simpl.
  - constructor; [assumption|]. now apply Forall2_same.
  - specialize (IH (fun c0 H0 => Hf c0 (or_intror H0))).
    destruct (some_insert f rest) as [r' rest']. simpl in *.
    constructor; assumption.
Qed.

Lemma shaped_with_points (t : QuadTree) (ps : list Point) :
  shaped t -> shaped (Node (bounds t) (maxItems t) (depth t) ps (children t)).
Proof.
  intros H; destruct H; simpl; [now apply shaped_leaf|now apply shaped_split].
Qed.

Lemma shaped_with_children (t : QuadTree) (cs' : list QuadTree) :
  shaped t -> Forall2 kept (children t) cs' ->
  shaped (Node (bounds t) (maxItems t) (depth t) (points t) cs').
Proof.
  intros Ht H2. destruct Ht as [b m d ps Hb|b m d ps c1 c2 c3 c4 Hb Hd Hq Hf S1 S2 S3 S4];
    simpl in *.
  - inversion H2. now apply shaped_leaf.
  - inversion H2 as [|? c1' ? l1 K1 H3]; subst.
    inversion H3 as [|? c2' ? l2 K2 H4]; subst.
    inversion H4 as [|? c3' ? l3 K3 H5]; subst.
    inversion H5 as [|? c4' ? l4 K4 H6]; subst.
    inversion H6; subst.
    destruct K1 as (B1 & M1 & D1 & T1), K2 as (B2 & M2 & D2 & T2),
             K3 as (B3 & M3 & D3 & T3), K4 as (B4 & M4 & D4 & T4).
    inversion_clear Hf as [|? ? [F1 G1] Hf1]. inversion_clear Hf1 as [|? ? [F2 G2] Hf2].
    inversion_clear Hf2 as [|? ? [F3 G3] Hf3]. inversion_clear Hf3 as [|? ? [F4 G4] _].
    apply shaped_split; auto.
    + simpl in *. congruence.
    + repeat constructor; congruence.
Qed.

Lemma insert_fuel_kept (n : nat) :
  forall (p : Point) (t : QuadTree), kept t (snd (insert_fuel n p t)).
Proof.
  induction n as [|n IH]; intros p t; simpl; [apply kept_refl|].
  destruct (negb (intersects p (bounds t))); [apply kept_refl|].
  destruct ((List.length (points t) <? maxItems t)%nat && (0 <? depth t)%nat).
  - unfold kept; simpl. repeat split. apply shaped_with_points.
  - set (t1 := if (List.length (children t) =? 0)%nat then subdivide t else t).
    assert (K1 : kept t t1).
    { subst t1. destruct (List.length (children t) =? 0)%nat; [|apply kept_refl].
      unfold kept. repeat split; try apply shaped_subdivide.
      all: unfold subdivide;
        destruct ((0 <? List.length (children t))%nat || (depth t =? 0)%nat);
        reflexivity. }
    pose proof (some_insert_Forall2 kept (insert_fuel n p) (children t1)
                  kept_refl (fun c _ => IH p c)) as H2.
    destruct (some_insert (insert_fuel n p) (children t1)) as [r cs']. simpl in *.
    destruct K1 as (B1 & M1 & D1 & T1).
    unfold kept; simpl. repeat split; try assumption.
    intros Ht. apply shaped_with_children; auto.
Qed.

Lemma shaped_insert (p : Point) (t : QuadTree) : shaped t -> shaped (snd (insert p t)).
Proof. intros Ht. unfold insert. now apply insert_fuel_kept. Qed.

Lemma shaped_insert_all (ps : list Point) :
  forall t : QuadTree, shaped t -> shaped (insert_all ps t).
Proof.
  unfold insert_all. induction ps as [|p ps IH]; intros t Ht; simpl; [assumption|].
  apply IH. now apply shaped_insert.
Qed.





(** A node of a built tree that has no remaining depth has no children. *)
Lemma shaped_depth_zero (t : QuadTree) : shaped t -> depth t = 0%nat -> children t = [].
Proof. intros H; destruct H; simpl; [reflexivity|lia]. Qed.

(** C3, as the code has it: a node whose remaining depth is zero and that has
    no children rejects every point, also one within its bounds, and is left
    unchanged: it neither subdivides nor stores the point.  In a tree built by
    inserts on well-formed root bounds every node of depth zero is such a
    node. *)
Theorem insert_at_depth_zero_rejects :
  (forall (t : QuadTree) (p : Point),
      depth t = 0%nat -> children t = [] -> insert p t = (false, t)) /\
  (forall (b : Bounds) (m d : nat) (ps : list Point) (n : QuadTree) (p : Point),
      well_formed b = true ->
      node_of n (insert_all ps (new_QuadTree b m d)) ->
      depth n = 0%nat ->
      insert p n = (false, n)).
Proof.
  split; [exact insert_depth_zero|].
  intros b m d ps n p Hb Hn Hd. apply insert_depth_zero; [assumption|].
  apply shaped_depth_zero; [|assumption].
  apply (shaped_node_of n _ Hn). apply shaped_insert_all. now apply shaped_new.
Qed.

Lemma insert_at_depth_zero_rejects_witness :
  insert (mkPoint 10 10) (new_QuadTree quadTreeBounds 1 0)
  = (false, new_QuadTree quadTreeBounds 1 0).
Proof.
  apply (proj2 insert_at_depth_zero_rejects quadTreeBounds 1%nat 0%nat []
               (new_QuadTree quadTreeBounds 1 0) (mkPoint 10 10));
    [reflexivity|apply node_self|reflexivity].
Defined.

(** ** Rejected inserts *)

Lemma QuadTree_children_ind (P : QuadTree -> Prop) :
  (forall t, (forall c, In c (children t) -> P c) -> P t) -> forall t, P t.
Proof.
  intros H t. remember (weight t) as w eqn:Hw. revert t Hw.
  induction w as [w IH] using lt_wf_ind. intros t ->.
  apply H. intros c Hc. apply (IH (weight c)); [now apply weight_children|reflexivity].
Qed.

Lemma keeps_points_refl (t : QuadTree) : keeps_points t t.
Proof.
  induction t as [t IH] using QuadTree_children_ind.
  destruct t as [b m d ps cs]. simpl in IH. apply keeps_node.
  induction cs as [|c cs IHcs]; constructor.
  - apply IH. now left.
  - apply IHcs. intros c' Hc'. apply IH. now right.
Qed.

(** When the [some] loop returns false, every child was tried and refused. *)
Lemma some_insert_false (f : QuadTree -> bool * QuadTree) (cs cs' : list QuadTree) :
  some_insert f cs = (false, cs') -> Forall2 (fun c c' => f c = (false, c')) cs cs'.
Proof.
  revert cs'. induction cs as [|c rest IH]; intros cs'; simpl.
  - intros H; injection H as <-. constructor.
  - destruct (f c) as [r c'] eqn:Hc. destruct r; [discriminate|].
    destruct (some_insert f rest) as [r' rest'] eqn:Hr.
    intros H; injection H as -> <-. constructor; [exact Hc|]. now apply IH.
Qed.

Lemma delegates_no_points (t : QuadTree) :
  flat_map all_points (delegates t) = flat_map all_points (children t).
Proof.
  unfold delegates. destruct t as [b m d ps [|c cs]]; simpl; [|reflexivity].
  unfold subdivide; simpl. destruct (d =? 0)%nat; reflexivity.
Qed.

Lemma insert_fuel_rejected (p : Point) (n : nat) :
  forall t t' : QuadTree,
    insert_fuel n p t = (false, t') ->
    keeps_points t t' /\ all_points t' = all_points t.
Proof.
  induction n as [|n IH]; intros t t'; simpl.
  - intros H; injection H as <-. split; [apply keeps_points_refl|reflexivity].
  - destruct (negb (intersects p (bounds t))).
    { intros H; injection H as <-. split; [apply keeps_points_refl|reflexivity]. }
    destruct ((List.length (points t) <? maxItems t)%nat && (0 <? depth t)%nat);
      [discriminate|].
    pose proof (delegates_no_points t) as Hpts. unfold delegates in Hpts.
    remember (if (List.length (children t) =? 0)%nat then subdivide t else t)
      as t1 eqn:Ht1.
    assert (F1 : bounds t1 = bounds t /\ maxItems t1 = maxItems t /\
                 depth t1 = depth t /\ points t1 = points t /\
                 (children t = [] \/ children t1 = children t)).
    { subst t1. destruct (List.length (children t)) eqn:Hlen; simpl.
      - apply length_zero_iff_nil in Hlen. unfold subdivide.
        destruct ((0 <? List.length (children t))%nat || (depth t =? 0)%nat); auto 10.
      - auto 10. }
    clear Ht1. destruct F1 as (-> & -> & -> & -> & Hcs).
    destruct (some_insert (insert_fuel n p) (children t1)) as [r cs'] eqn:Hs.
    intros H; injection H as -> <-.
    apply some_insert_false in Hs.
    assert (Hall : Forall2 (fun c c' => keeps_points c c' /\ all_points c' = all_points c)
                           (children t1) cs').
    { clear -Hs IH. induction Hs; constructor; [now apply IH|assumption]. }
    assert (Hflat : flat_map all_points cs' = flat_map all_points (children t1)).
    { clear -Hall. induction Hall as [|c c' l l' [_ Hc] _ IHl]; simpl; congruence. }
    assert (Hkeep : Forall2 keeps_points (children t1) cs').
    { clear -Hall. induction Hall as [|c c' l l' [Hc _] _ IHl]; constructor; auto. }
    destruct t as [b m d ps cs]. cbn [bounds maxItems depth points children] in *.
    split.
    + destruct Hcs as [->|<-]; [|now apply keeps_node].
      apply keeps_grown. rewrite Hpts in Hflat. simpl in Hflat. clear -Hflat.
      induction cs' as [|c' cs' IHc]; constructor.
      * simpl in Hflat. now apply app_eq_nil in Hflat.
      * apply IHc. simpl in Hflat. now apply app_eq_nil in Hflat.
    + simpl. now rewrite Hflat, Hpts.
Qed.

(** C4, as the code has it: a rejected [insert] changes the points of no node
    and adds no point anywhere; when the point is outside the bounds of the
    node the tree is returned as it was.  (Children may have been created, all
    of them without points: [insert] subdivides before it delegates.) *)
Theorem rejected_insert_keeps_points (p : Point) (t t' : QuadTree) :
  insert p t = (false, t') ->
  keeps_points t t' /\
  all_points t' = all_points t /\
  (intersects p (bounds t) = false -> t' = t).
Proof.
  intros H. pose proof (insert_fuel_rejected p _ t t' H) as [Hk Ha].
  repeat split; try assumption.
  intros Ho. rewrite (insert_outside p t Ho) in H. congruence.
Qed.

Lemma rejected_insert_keeps_points_witness :
  let t := snd (insert (mkPoint 10 10) (new_QuadTree quadTreeBounds 1 1)) in
  all_points (snd (insert (mkPoint 10 10) t)) = all_points t.
Proof.
  intros t.
  apply (rejected_insert_keeps_points (mkPoint 10 10) t (snd (insert (mkPoint 10 10) t))).
  vm_compute. reflexivity.
Defined.

(** C4 as stated fails: on the canvas with maxItems 1 and depth 1, the second
    insert of (10,10) returns false and yet leaves four children on the root,
    which had none. *)
Lemma rejected_insert_creates_children :
  let t := snd (insert (mkPoint 10 10) (new_QuadTree quadTreeBounds 1 1)) in
  children t = [] /\
  fst (insert (mkPoint 10 10) t) = false /\
  List.length (children (snd (insert (mkPoint 10 10) t))) = 4%nat /\
  snd (insert (mkPoint 10 10) t) <> t.
Proof.
  repeat split; try (vm_compute; reflexivity).
  intros H. apply (f_equal (fun t => List.length (children t))) in H.
  vm_compute in H. discriminate H.
Qed.

(** ** Repeated inserts of one point *)












(** * Further properties of the class *)

(** ** Properties of single nodes that [insert] maintains *)

Lemma node_of_inv (n t : QuadTree) :
  node_of n t -> n = t \/ exists c, In c (children t) /\ node_of n c.
Proof. intros H. destruct H as [|t c Hin Hn]; [now left|right; eauto]. Qed.

Lemma Forall2_pick_right {A B : Type} (R : A -> B -> Prop) (l : list A) (l' : list B) (b : B) :
  Forall2 R l l' -> In b l' -> exists a, In a l /\ R a b.
Proof.
  induction 1 as [|a b' l l' Hab _ IH]; simpl; [tauto|].
  intros [<-|Hin]; [exists a; auto|].
  destruct (IH Hin) as [a' [Ha' HR]]. exists a'. auto.
Qed.

Lemma every_node_child (P : Bounds -> nat -> nat -> list Point -> Prop) (t c : QuadTree) :
  every_node P t -> In c (children t) -> every_node P c.
Proof. intros Ht Hc n Hn. apply Ht. now apply (node_child n t c). Qed.

Lemma every_node_build (P : Bounds -> nat -> nat -> list Point -> Prop)
      (b : Bounds) (m d : nat) (ps : list Point) (cs : list QuadTree) :
  P b m d ps -> (forall c, In c cs -> every_node P c) -> every_node P (Node b m d ps cs).
Proof.
  intros Hroot Hcs n Hn. apply node_of_inv in Hn.
  destruct Hn as [->|[c [Hin Hn]]]; [exact Hroot|]. now apply (Hcs c Hin).
Qed.

Lemma every_node_new (P : Bounds -> nat -> nat -> list Point -> Prop) (b : Bounds) (m d : nat) :
  P b m d [] -> every_node P (new_QuadTree b m d).
Proof. intros H. apply every_node_build; [exact H|]. intros c []. Qed.

Section NodeInvariant.

Variable P : Bounds -> nat -> nat -> list Point -> Prop.
Variable point : Point.

(** A node without points satisfies the property. *)
Hypothesis P_fresh : forall b m d, P b m d [].

(** Storing the point keeps the property, under the two tests that [insert]
    has passed when it stores. *)
Hypothesis P_store :
  forall b m d ps,
    P b m d ps -> intersects point b = true ->
    (List.length ps < m)%nat -> (0 < d)%nat ->
    P b m d (ps ++ [point]).

Lemma every_node_subdivide (t : QuadTree) : every_node P t -> every_node P (subdivide t).
Proof.
  intros Ht. unfold subdivide.
  destruct ((0 <? List.length (children t))%nat || (depth t =? 0)%nat); [assumption|].
  apply every_node_build; [apply (Ht t (node_self t))|].
  intros c Hc. apply in_app_or in Hc. destruct Hc as [Hc|Hc].
  - now apply (every_node_child P t).
  - apply in_map_iff in Hc. destruct Hc as [q [<- _]].
    apply every_node_new. apply P_fresh.
Qed.

Lemma every_node_insert_fuel (n : nat) :
  forall t : QuadTree, every_node P t -> every_node P (snd (insert_fuel n point t)).
Proof.
  induction n as [|n IH]; intros t Ht; simpl; [assumption|].
  destruct (negb (intersects point (bounds t))) eqn:Hin; [assumption|].
  apply negb_false_iff in Hin.
  destruct ((List.length (points t) <? maxItems t)%nat && (0 <? depth t)%nat) eqn:Hroom.
  - apply andb_true_iff in Hroom. destruct Hroom as [Hlen Hd].
    apply Nat.ltb_lt in Hlen. apply Nat.ltb_lt in Hd. simpl.
    apply every_node_build.
    + apply P_store; try assumption. apply (Ht t (node_self t)).
    + intros c Hc. now apply (every_node_child P t).
  - set (t1 := if (List.length (children t) =? 0)%nat then subdivide t else t).
    assert (Ht1 : every_node P t1).
    { subst t1. destruct (List.length (children t) =? 0)%nat;
        [now apply every_node_subdivide|assumption]. }
    pose proof (some_insert_Forall2 (fun c c' => every_node P c -> every_node P c')
                  (insert_fuel n point) (children t1)
                  (fun c H => H) (fun c _ => IH c)) as H2.
    destruct (some_insert (insert_fuel n point) (children t1)) as [r cs']. simpl in *.
    apply every_node_build; [apply (Ht1 t1 (node_self t1))|].
    intros c' Hc'. destruct (Forall2_pick_right _ _ _ _ H2 Hc') as [c [Hc Hcc']].
    apply Hcc'. now apply (every_node_child P t1).
Qed.

Lemma every_node_insert (t : QuadTree) :
  every_node P t -> every_node P (snd (insert point t)).
Proof. apply every_node_insert_fuel. Qed.

End NodeInvariant.

Lemma every_node_insert_all (P : Bounds -> nat -> nat -> list Point -> Prop) (ps : list Point) :
  (forall b m d, P b m d []) ->
  (forall p b m d l,
      In p ps -> P b m d l -> intersects p b = true ->
      (List.length l < m)%nat -> (0 < d)%nat -> P b m d (l ++ [p])) ->
  forall t : QuadTree, every_node P t -> every_node P (insert_all ps t).
Proof.
  intros Hfresh. unfold insert_all.
  induction ps as [|p ps IH]; intros Hstore t Ht; simpl; [assumption|].
  apply IH.
  - intros p' b m d l Hin. apply Hstore. now right.
  - apply every_node_insert; [exact Hfresh| |exact Ht].
    intros b m d l. apply Hstore. now left.
Qed.

(** X1: in a tree built by inserts into a fresh node, every point stored at a
    node lies within the bounds of that node and is one of the inserted
    points. *)
Theorem stored_points_within_node_bounds
        (b : Bounds) (m d : nat) (ps : list Point) (n : QuadTree) (p : Point) :
  node_of n (insert_all ps (new_QuadTree b m d)) ->
  In p (points n) ->
  within p (bounds n) /\ In p ps.
Proof.
  intros Hn Hp.
  assert (H : every_node (fun b _ _ l => Forall (fun q => within q b /\ In q ps) l)
                         (insert_all ps (new_QuadTree b m d))).
  { apply every_node_insert_all.
    - intros; constructor.
    - intros q b' m' d' l Hq Hl Hi _ _. apply Forall_app. split; [exact Hl|].
      constructor; [|constructor]. split; [now apply intersects_within|exact Hq].
    - apply every_node_new. constructor. }
  specialize (H n Hn). simpl in H. rewrite Forall_forall in H. now apply H.
Qed.

(** X2: in a tree built by inserts into a fresh node, no node holds more
    points than its threshold, and a node without remaining depth holds none. *)
Theorem node_points_bounded_by_maxItems
        (b : Bounds) (m d : nat) (ps : list Point) (n : QuadTree) :
  node_of n (insert_all ps (new_QuadTree b m d)) ->
  (List.length (points n) <= maxItems n)%nat /\
  (depth n = 0%nat -> points n = []).
Proof.
  intros Hn.
  assert (H : every_node (fun _ m d l => (List.length l <= m)%nat /\ (d = 0%nat -> l = []))
                         (insert_all ps (new_QuadTree b m d))).
  { apply every_node_insert_all.
    - intros; split; [simpl; lia|reflexivity].
    - intros q b' m' d' l _ _ _ Hlen Hd. rewrite length_app. simpl. split; lia.
    - apply every_node_new. split; [simpl; lia|reflexivity]. }
  exact (H n Hn).
Qed.

Lemma stored_points_within_node_bounds_witness :
  within (mkPoint 10 10) quadTreeBounds /\ In (mkPoint 10 10) [mkPoint 10 10].
Proof.
  apply (stored_points_within_node_bounds quadTreeBounds 1 8 [mkPoint 10 10]
           (insert_all [mkPoint 10 10] (new_QuadTree quadTreeBounds 1 8)) (mkPoint 10 10)).
  - apply node_self.
  - vm_compute. left. reflexivity.
Defined.

Lemma node_points_bounded_by_maxItems_witness :
  let n := insert_all [mkPoint 10 10; mkPoint 10 10] (new_QuadTree quadTreeBounds 1 8) in
  (List.length (points n) <= maxItems n)%nat /\ (depth n = 0%nat -> points n = []).
Proof.
  intros n.
  apply (node_points_bounded_by_maxItems quadTreeBounds 1 8 [mkPoint 10 10; mkPoint 10 10] n).
  apply node_self.
Defined.

(** ** Accepted inserts *)

(** When the [some] loop returns true, the children before the accepting one
    refused, and the children after it were not tried. *)
Lemma some_insert_true (f : QuadTree -> bool * QuadTree) (cs cs' : list QuadTree) :
  some_insert f cs = (true, cs') ->
  exists pre pre' c c' post,
    cs = pre ++ c :: post /\ cs' = pre' ++ c' :: post /\
    Forall2 (fun a a' => f a = (false, a')) pre pre' /\ f c = (true, c').
Proof.
  revert cs'. induction cs as [|c rest IH]; intros cs'; simpl; [discriminate|].
  destruct (f c) as [r c'] eqn:Hc. destruct r.
  - intros H; injection H as <-. exists [], [], c, c', rest. repeat split; auto.
  - destruct (some_insert f rest) as [r' rest'] eqn:Hr.
    intros H; injection H as -> <-.
    destruct (IH rest' eq_refl) as (pre & pre' & c0 & c0' & post & -> & -> & Hpre & Hc0).
    exists (c :: pre), (c' :: pre'), c0, c0', post. repeat split; auto.
Qed.

Lemma insert_fuel_accepted (p : Point) (n : nat) :
  forall t t' : QuadTree,
    insert_fuel n p t = (true, t') ->
    intersects p (bounds t) = true /\
    exists l1 l2, all_points t = l1 ++ l2 /\ all_points t' = l1 ++ p :: l2.
Proof.
  induction n as [|n IH]; intros t t'; simpl; [discriminate|].
  destruct (negb (intersects p (bounds t))) eqn:Hin; [discriminate|].
  apply negb_false_iff in Hin. intros H. split; [exact Hin|]. revert H.
  destruct ((List.length (points t) <? maxItems t)%nat && (0 <? depth t)%nat).
  - intros H; injection H as <-. destruct t as [b m d ps cs]; simpl.
    exists ps, (flat_map all_points cs). split; [reflexivity|].
    rewrite <- app_assoc. reflexivity.
  - pose proof (delegates_no_points t) as Hpts. unfold delegates in Hpts.
    remember (if (List.length (children t) =? 0)%nat then subdivide t else t) as t1 eqn:Ht1.
    assert (F1 : points t1 = points t).
    { subst t1. destruct (List.length (children t) =? 0)%nat; [|reflexivity].
      unfold subdivide.
      destruct ((0 <? List.length (children t))%nat || (depth t =? 0)%nat); reflexivity. }
    clear Ht1.
    destruct (some_insert (insert_fuel n p) (children t1)) as [r cs'] eqn:Hs.
    intros H; injection H as -> <-.
    apply some_insert_true in Hs.
    destruct Hs as (pre & pre' & c & c' & post & Ecs & -> & Hpre & Hc).
    apply IH in Hc. destruct Hc as [_ (l1 & l2 & E1 & E2)].
    assert (Hflat : flat_map all_points pre' = flat_map all_points pre).
    { clear -Hpre. induction Hpre as [|a a' l l' Ha _ IHl]; simpl; [reflexivity|].
      apply (insert_fuel_rejected p n) in Ha. destruct Ha as [_ Ha]. congruence. }
    destruct t as [b m d ps cs]. cbn [points children all_points] in *.
    rewrite F1. rewrite <- Hpts, Ecs.
    rewrite !flat_map_app. cbn [flat_map]. rewrite Hflat, E1, E2.
    exists (ps ++ flat_map all_points pre ++ l1), (l2 ++ flat_map all_points post).
    rewrite <- !app_assoc. split; reflexivity.
Qed.

(** X3: an insert that returns true was given a point within the node's bounds,
    and it puts exactly this one point into the tree: the points stored before
    are all kept, in their order. *)
Theorem accepted_insert_adds_the_point (p : Point) (t t' : QuadTree) :
  insert p t = (true, t') ->
  intersects p (bounds t) = true /\
  exists l1 l2, all_points t = l1 ++ l2 /\ all_points t' = l1 ++ p :: l2.
Proof. apply insert_fuel_accepted. Qed.

Lemma accepted_insert_adds_the_point_witness :
  let t := new_QuadTree quadTreeBounds 1 8 in
  intersects (mkPoint 10 10) (bounds t) = true /\
  exists l1 l2, all_points t = l1 ++ l2 /\
                all_points (snd (insert (mkPoint 10 10) t)) = l1 ++ mkPoint 10 10 :: l2.
Proof.
  intros t.
  apply (accepted_insert_adds_the_point (mkPoint 10 10) t (snd (insert (mkPoint 10 10) t))).
  vm_compute. reflexivity.
Defined.

Lemma insert_all_points (p : Point) (t : QuadTree) :
  Permutation (all_points (snd (insert p t)))
              (if fst (insert p t) then p :: all_points t else all_points t).
Proof.
  destruct (insert p t) as [r t'] eqn:H. destruct r; simpl.
  - apply insert_fuel_accepted in H. destruct H as [_ (l1 & l2 & -> & ->)].
    symmetry. apply Permutation_middle.
  - apply insert_fuel_rejected in H. destruct H as [_ ->]. reflexivity.
Qed.

(** X4: after any sequence of inserts the tree holds exactly the points it held
    before and the points whose insert returned true, each as often as it was
    accepted: nothing is lost or doubled by a later subdivision. *)
Theorem stored_points_are_the_accepted (ps : list Point) (t : QuadTree) :
  Permutation (all_points (snd (insert_results ps t)))
              (all_points t ++ accepted ps (fst (insert_results ps t))).
Proof.
  revert t. induction ps as [|p ps IH]; intros t; simpl.
  - rewrite app_nil_r. reflexivity.
  - pose proof (insert_all_points p t) as Hp.
    destruct (insert p t) as [r t']. simpl in Hp.
    specialize (IH t'). destruct (insert_results ps t') as [rs t'']. simpl in *.
    rewrite IH. destruct r.
    + rewrite Hp. simpl. apply Permutation_middle.
    + rewrite Hp. reflexivity.
Qed.

(** ** Levels and capacity *)

Lemma insert_all_results (ps : list Point) (t : QuadTree) :
  insert_all ps t = snd (insert_results ps t).
Proof.
  unfold insert_all. revert t. induction ps as [|p ps IH]; intros t; simpl; [reflexivity|].
  rewrite IH. destruct (insert p t) as [r t']. simpl.
  destruct (insert_results ps t') as [rs t'']. reflexivity.
Qed.

Lemma insert_all_fields (ps : list Point) (t : QuadTree) :
  bounds (insert_all ps t) = bounds t /\
  maxItems (insert_all ps t) = maxItems t /\
  depth (insert_all ps t) = depth t.
Proof.
  unfold insert_all. revert t. induction ps as [|p ps IH]; intros t; simpl; [auto|].
  destruct (IH (snd (insert p t))) as (B & M & D).
  destruct (insert_fuel_kept (S (weight t)) p t) as (B1 & M1 & D1 & _).
  unfold insert in *. repeat split; congruence.
Qed.

Lemma insert_all_malformed (ps : list Point) (t : QuadTree) :
  well_formed (bounds t) = false -> insert_all ps t = t.
Proof.
  intros Hb. unfold insert_all. induction ps as [|p ps IH]; simpl; [reflexivity|].
  rewrite (insert_outside p t (malformed_contains_nothing p (bounds t) Hb)). exact IH.
Qed.

Lemma shaped_height (t : QuadTree) : shaped t -> (height t <= depth t + 1)%nat.
Proof.
  induction 1 as [b m d ps Hb|b m d ps c1 c2 c3 c4 Hb Hd Hq Hf S1 I1 S2 I2 S3 I3 S4 I4];
    simpl; [lia|].
  inversion_clear Hf as [|? ? [_ D1] Hf1]. inversion_clear Hf1 as [|? ? [_ D2] Hf2].
  inversion_clear Hf2 as [|? ? [_ D3] Hf3]. inversion_clear Hf3 as [|? ? [_ D4] _].
  lia.
Qed.

Lemma shaped_node_depth (n t : QuadTree) :
  node_of n t -> shaped t -> (depth n <= depth t)%nat.
Proof.
  induction 1 as [|t c Hin Hn IH]; intros Ht; [lia|].
  specialize (IH (shaped_child t c Ht Hin)).
  destruct Ht as [b m d ps Hb|b m d ps c1 c2 c3 c4 Hb Hd Hq Hf S1 S2 S3 S4];
    simpl in *; [tauto|].
  rewrite Forall_forall in Hf. destruct (Hf c Hin) as [_ Dc]. lia.
Qed.

(** X5: a tree built by inserts into a fresh node of depth [d] has at most
    [d + 1] levels, and none of its nodes has a remaining depth above [d]. *)
Theorem built_tree_height_bounded (b : Bounds) (m d : nat) (ps : list Point) :
  (height (insert_all ps (new_QuadTree b m d)) <= d + 1)%nat /\
  (forall n, node_of n (insert_all ps (new_QuadTree b m d)) -> (depth n <= d)%nat).
Proof.
  destruct (well_formed b) eqn:Hb.
  - assert (Hs : shaped (insert_all ps (new_QuadTree b m d))).
    { apply shaped_insert_all. now apply shaped_new. }
    destruct (insert_all_fields ps (new_QuadTree b m d)) as (_ & _ & D). simpl in D.
    split.
    + pose proof (shaped_height _ Hs) as H. rewrite D in H. exact H.
    + intros n Hn. pose proof (shaped_node_depth n _ Hn Hs) as H. rewrite D in H. exact H.
  - rewrite insert_all_malformed by exact Hb. split; [simpl; lia|].
    intros n Hn. apply node_of_inv in Hn. destruct Hn as [->|[c [[] _]]]. simpl. lia.
Qed.

Lemma storing_nodes_positive (d : nat) : (0 < d)%nat -> (1 <= storing_nodes d)%nat.
Proof. destruct d; simpl; lia. Qed.

Lemma shaped_capacity (t : QuadTree) :
  shaped t ->
  every_node (fun _ m d l => (List.length l <= m)%nat /\ (d = 0%nat -> l = [])) t ->
  (List.length (all_points t) <= maxItems t * storing_nodes (depth t))%nat.
Proof.
  induction 1 as [b m d ps Hb|b m d ps c1 c2 c3 c4 Hb Hd Hq Hf S1 I1 S2 I2 S3 I3 S4 I4];
    intros He.
  - destruct (He _ (node_self _)) as [Hlen Hz]. simpl in *. rewrite app_nil_r.
    destruct d as [|d]; [rewrite Hz by reflexivity; simpl; lia|].
    pose proof (storing_nodes_positive (S d)). nia.
  - destruct (He _ (node_self _)) as [Hlen _].
    assert (E : forall c, In c [c1; c2; c3; c4] ->
                          every_node (fun _ m d l => (List.length l <= m)%nat /\
                                                     (d = 0%nat -> l = [])) c).
    { intros c Hc. apply (every_node_child _ _ c He). exact Hc. }
    specialize (I1 (E c1 (or_introl eq_refl))).
    specialize (I2 (E c2 (or_intror (or_introl eq_refl)))).
    specialize (I3 (E c3 (or_intror (or_intror (or_introl eq_refl))))).
    specialize (I4 (E c4 (or_intror (or_intror (or_intror (or_introl eq_refl)))))).
    inversion_clear Hf as [|? ? [M1 D1] Hf1]. inversion_clear Hf1 as [|? ? [M2 D2] Hf2].
    inversion_clear Hf2 as [|? ? [M3 D3] Hf3]. inversion_clear Hf3 as [|? ? [M4 D4] _].
    rewrite M1, D1 in I1. rewrite M2, D2 in I2. rewrite M3, D3 in I3. rewrite M4, D4 in I4.
    cbn [all_points flat_map maxItems depth points] in *.
    rewrite !length_app. cbn [List.length].
    destruct d as [|d]; [lia|]. cbn [storing_nodes]. replace (S d - 1)%nat with d in * by lia.
    nia.
Qed.

(** X6: a tree built by inserts into a fresh node with threshold [m] and depth
    [d] never holds more than [m] points for each node that can store, that is
    [m * (1 + 4 + ... + 4^(d-1))] points in all, however many are inserted. *)
Theorem built_tree_capacity (b : Bounds) (m d : nat) (ps : list Point) :
  (List.length (all_points (insert_all ps (new_QuadTree b m d))) <= m * storing_nodes d)%nat.
Proof.
  destruct (well_formed b) eqn:Hb.
  - destruct (insert_all_fields ps (new_QuadTree b m d)) as (_ & M & D). simpl in M, D.
    pose proof (shaped_capacity (insert_all ps (new_QuadTree b m d))) as H.
    rewrite M, D in H. apply H.
    + apply shaped_insert_all. now apply shaped_new.
    + apply every_node_insert_all.
      * intros; split; [simpl; lia|reflexivity].
      * intros q b' m' d' l _ _ _ Hlen Hd. rewrite length_app. simpl. split; lia.
      * apply every_node_new. split; [simpl; lia|reflexivity].
  - rewrite insert_all_malformed by exact Hb. simpl. lia.
Qed.

(** X7: subdividing twice is subdividing once: the second call finds the
    children of the first, or the exhausted depth, and returns at once. *)
Theorem subdivide_idempotent (t : QuadTree) : subdivide (subdivide t) = subdivide t.
Proof.
  unfold subdivide at 2 3.
  destruct ((0 <? List.length (children t))%nat || (depth t =? 0)%nat) eqn:E.
  - unfold subdivide. rewrite E. reflexivity.
  - unfold subdivide. cbn [children depth]. rewrite length_app. cbn [List.length map quadrants].
    replace (0 <? List.length (children t) + 4)%nat with true; [reflexivity|].
    symmetry. apply Nat.ltb_lt. lia.
Qed.

(** ** Where a point is stored *)

Lemma insert_with_room (p : Point) (b : Bounds) (m d : nat) (l : list Point)
      (cs : list QuadTree) :
  intersects p b = true -> (List.length l < m)%nat -> (0 < d)%nat ->
  insert p (Node b m d l cs) = (true, Node b m d (l ++ [p]) cs).
Proof.
  intros Hin Hlen Hd. rewrite insert_eq. cbn [bounds points maxItems depth children].
  rewrite Hin. cbn [negb].
  apply Nat.ltb_lt in Hlen. apply Nat.ltb_lt in Hd. rewrite Hlen, Hd. reflexivity.
Qed.

Lemma results_with_room (b : Bounds) (m d : nat) (ps : list Point) :
  (0 < d)%nat ->
  Forall (fun p : Point => intersects p b = true) ps ->
  forall l : list Point,
    (List.length l + List.length ps <= m)%nat ->
    insert_results ps (Node b m d l [])
    = (repeat true (List.length ps), Node b m d (l ++ ps) []).
Proof.
  intros Hd Hps. induction Hps as [|p ps Hp _ IH]; intros l Hlen; simpl.
  - rewrite app_nil_r. reflexivity.
  - simpl in Hlen. rewrite insert_with_room by (assumption || lia).
    rewrite IH by (rewrite length_app; simpl; lia).
    rewrite <- app_assoc. reflexivity.
Qed.

(** X8: on a fresh node with remaining depth, up to [maxItems] points within
    the bounds are all accepted and are stored in the node itself, in the
    order of insertion, without any subdivision. *)
Theorem first_points_fill_the_root (b : Bounds) (m d : nat) (ps : list Point) :
  (0 < d)%nat ->
  (List.length ps <= m)%nat ->
  Forall (fun p : Point => intersects p b = true) ps ->
  insert_results ps (new_QuadTree b m d)
  = (repeat true (List.length ps), Node b m d ps []).
Proof.
  intros Hd Hlen Hps. unfold new_QuadTree.
  rewrite (results_with_room b m d ps Hd Hps []) by (simpl; lia). reflexivity.
Qed.

Lemma first_points_fill_the_root_witness :
  insert_results [mkPoint 5 5; mkPoint 595 395] (new_QuadTree quadTreeBounds 2 8)
  = ([true; true], Node quadTreeBounds 2 8 [mkPoint 5 5; mkPoint 595 395] []).
Proof.
  apply (first_points_fill_the_root quadTreeBounds 2 8 [mkPoint 5 5; mkPoint 595 395]).
  - lia.
  - simpl. lia.
  - repeat constructor.
Defined.






(** ** Queries with any object *)

Lemma fold_left_constant {A B : Type} (f : A -> B -> A) (l : list B) (a : A) :
  (forall a' b, In b l -> f a' b = a') -> fold_left f l a = a.
Proof.
  revert a. induction l as [|b l IH]; intros a Hf; simpl; [reflexivity|].
  rewrite (Hf a b) by (now left). apply IH. intros a' b' Hb'. apply Hf. now right.
Qed.

Lemma intersects_point_second (o : JsObject) (range : Point) : intersects o range = false.
Proof. unfold intersects, js_ge, js_le; simpl. reflexivity. Qed.

(** X11: [queryRange] adds nothing to its accumulator, whichever of the
    program's objects is passed as range and whatever the tree holds: a bounds
    object fails the pruning test at the root, a point object passes it at best
    and then fails the test of every stored point.  So the hit test
    [queryRange(...).length > 0] of [findCommonPoints] is false for every
    point. *)
Theorem queryRange_never_finds (range : JsObject) (found : list Point) (t : QuadTree) :
  queryRange range found t = found /\
  (0 <? List.length (queryRange range [] t))%nat = false.
Proof.
  assert (H : forall t0 acc0, queryRange range acc0 t0 = acc0).
  { clear. destruct range as [r|r]; [|intros; apply queryRange_bounds_range].
    induction t0 as [t IH] using QuadTree_children_ind. intros found.
    destruct t as [b m d ps cs]. cbn [queryRange]. cbn [children] in IH.
    destruct (negb (intersects r b)); [reflexivity|].
    rewrite (fold_left_constant _ ps found).
    - apply fold_left_constant. intros acc c Hc. now apply IH.
    - intros acc q _. cbv beta. now rewrite intersects_point_second. }
  split; [apply H|]. rewrite H. reflexivity.
Qed.

(** ** Drawing *)






(** X13: the overlap highlight is never drawn: whatever the two trees hold,
    [drawCommonPoints] applied to the result of [findCommonPoints] makes no
    call on the canvas. *)
Theorem overlap_highlight_draws_nothing (admin user : QuadTree) (ctx : list CanvasCall) :
  drawCommonPoints (findCommonPoints user [] admin) ctx = ctx.
Proof. rewrite findCommonPoints_unchanged. reflexivity. Qed.


(** ** The point-in-polygon helper *)

Lemma nth_length_last {A : Type} (l : list A) (d : A) :
  nth (List.length l - 1) l d = last l d.
Proof.
  induction l as [|a l IH]; [reflexivity|].
  destruct l as [|a' l]; [reflexivity|].
  simpl in *. rewrite Nat.sub_0_r in IH. exact IH.
Qed.

(** The loop toggles [inside] once for every edge that passes the test. *)
Lemma polygon_loop_parity (point : Point) (rest : list Point) :
  forall (done : list Point) (j : nat) (inside : bool),
    polygon_loop point (done ++ rest) (List.length rest) (List.length done) j inside
    = xorb inside (edge_parity point (nth j (done ++ rest) (mkPoint 0 0)) rest).
Proof.
  induction rest as [|v rest IH]; intros done j inside; simpl.
  - now rewrite xorb_false_r.
  - rewrite nth_middle.
    assert (E : done ++ v :: rest = (done ++ [v]) ++ rest) by now rewrite <- app_assoc.
    rewrite E at 1.
    replace (S (List.length done)) with (List.length (done ++ [v]))
      by (rewrite length_app; simpl; lia).
    rewrite IH. rewrite <- E.
    replace (List.length (done ++ [v])) with (S (List.length done))
      by (rewrite length_app; simpl; lia).
    replace (nth (List.length done) (done ++ v :: rest) (mkPoint 0 0)) with v
      by (now rewrite nth_middle).
    destruct (edge_intersect point v (nth j (done ++ v :: rest) (mkPoint 0 0))),
      inside, (edge_parity point v rest); reflexivity.
Qed.

Lemma isPointInPolygon_parity (point : Point) (polygon : list Point) :
  isPointInPolygon point polygon
  = edge_parity point (last polygon (mkPoint 0 0)) polygon.
Proof.
  unfold isPointInPolygon.
  etransitivity;
    [exact (polygon_loop_parity point polygon [] (List.length polygon - 1)%nat false)|].
  cbn [app xorb]. now rewrite nth_length_last.
Qed.

Lemma edge_parity_snoc (point : Point) (vs : list Point) (w : Point) :
  forall prev : Point,
    edge_parity point prev (vs ++ [w])
    = xorb (edge_parity point prev vs) (edge_intersect point w (last (prev :: vs) prev)).
Proof.
  induction vs as [|v vs IH]; intros prev.
  - simpl. now rewrite xorb_false_r.
  - cbn [app edge_parity]. rewrite IH, xorb_assoc_reverse.
    replace (last (prev :: v :: vs) prev) with (last (v :: vs) v); [reflexivity|].
    clear. revert v prev. induction vs as [|a vs IH]; intros v prev; [reflexivity|].
    change (last (v :: a :: vs) v) with (last (a :: vs) v).
    change (last (prev :: v :: a :: vs) prev) with (last (a :: vs) prev).
    clear. revert a. induction vs as [|a' vs IH]; intros a; [reflexivity|].
    change (last (a :: a' :: vs) v) with (last (a' :: vs) v).
    change (last (a :: a' :: vs) prev) with (last (a' :: vs) prev). apply IH.
Qed.

Lemma last_cons_default {A : Type} (a : A) (l : list A) (d d' : A) :
  last (a :: l) d = last (a :: l) d'.
Proof.
  revert a. induction l as [|a' l IH]; intros a; [reflexivity|].
  change (last (a :: a' :: l) d) with (last (a' :: l) d).
  change (last (a :: a' :: l) d') with (last (a' :: l) d'). apply IH.
Qed.

Lemma isPointInPolygon_rotate_one (point v : Point) (rest : list Point) :
  isPointInPolygon point (rest ++ [v]) = isPointInPolygon point (v :: rest).
Proof.
  rewrite !isPointInPolygon_parity. rewrite last_last.
  rewrite edge_parity_snoc. cbn [edge_parity].
  rewrite (last_cons_default v rest (mkPoint 0 0) v). apply xorb_comm.
Qed.

(** X14: the answer of [isPointInPolygon] does not depend on the vertex at
    which the polygon's vertex list starts: rotating the list leaves it
    unchanged. *)
Theorem isPointInPolygon_rotation (point : Point) (l1 l2 : list Point) :
  isPointInPolygon point (l2 ++ l1) = isPointInPolygon point (l1 ++ l2).
Proof.
  revert l2. induction l1 as [|v l1 IH]; intros l2.
  - now rewrite app_nil_r.
  - replace (l2 ++ v :: l1) with ((l2 ++ [v]) ++ l1) by now rewrite <- app_assoc.
    rewrite IH, app_assoc, isPointInPolygon_rotate_one. reflexivity.
Qed.

Lemma edge_parity_one_side (point : Point) (side : bool) (vs : list Point) :
  forall prev : Point,
    js_gt (y prev) (y point) = side ->
    Forall (fun v => js_gt (y v) (y point) = side) vs ->
    edge_parity point prev vs = false.
Proof.
  induction vs as [|v vs IH]; intros prev Hprev Hvs; [reflexivity|].
  inversion_clear Hvs as [|? ? Hv Hvs']. cbn [edge_parity].
  rewrite (IH v Hv Hvs'). unfold edge_intersect. rewrite Hv, Hprev, eqb_reflx.
  reflexivity.
Qed.

(** X15: a point is reported outside whenever all vertices of the polygon lie
    on one side of the horizontal line through it (all with [y] above the
    point's, or none); in particular for the empty polygon and for a polygon
    of a single vertex. *)
Theorem isPointInPolygon_one_side (point : Point) (polygon : list Point) (side : bool) :
  Forall (fun v => js_gt (y v) (y point) = side) polygon ->
  isPointInPolygon point polygon = false.
Proof.
  intros H. rewrite isPointInPolygon_parity.
  destruct polygon as [|v vs]; [reflexivity|].
  apply (edge_parity_one_side point side); [|exact H].
  rewrite Forall_forall in H. apply H.
  destruct (exists_last (l := v :: vs)) as (l' & a & E); [discriminate|].
  rewrite E, last_last. apply in_elt.
Qed.

Lemma isPointInPolygon_one_side_witness :
  isPointInPolygon (mkPoint 5 20) [mkPoint 0 0; mkPoint 10 0; mkPoint 10 10; mkPoint 0 10]
  = false.
Proof.
  apply (isPointInPolygon_one_side _ _ false). repeat constructor.
Defined.




(** ** Rejection is final *)

Lemma some_insert_fst_false (f : QuadTree -> bool * QuadTree) (cs : list QuadTree) :
  fst (some_insert f cs) = false <-> Forall (fun c => fst (f c) = false) cs.
Proof.
  induction cs as [|c rest IH]; simpl; [split; [constructor|reflexivity]|].
  destruct (f c) as [r c'] eqn:Hc. destruct r; simpl.
  - split; [discriminate|]. intros H. inversion_clear H as [|? ? H1 _].
    rewrite Hc in H1. discriminate H1.
  - destruct (some_insert f rest) as [r' rest']. simpl in *. rewrite IH. split.
    + intros H. constructor; [now rewrite Hc|exact H].
    + intros H. now inversion_clear H.
Qed.

(** When [insert] returns false. *)
Lemma insert_rejects_iff (p : Point) (t : QuadTree) :
  fst (insert p t) = false <->
  intersects p (bounds t) = false \/
  ((List.length (points t) <? maxItems t)%nat && (0 <? depth t)%nat = false /\
   Forall (fun c => fst (insert p c) = false) (delegates t)).
Proof.
  rewrite insert_eq. unfold delegates. cbv zeta.
  destruct (intersects p (bounds t)); cbn [negb]; [|simpl; tauto].
  destruct ((List.length (points t) <? maxItems t)%nat && (0 <? depth t)%nat).
  - simpl. split; [discriminate|]. intros [H|[H _]]; discriminate H.
  - rewrite <- some_insert_fst_false.
    destruct (some_insert (insert p) _) as [r cs']. simpl.
    split; [intros H; right; split; [reflexivity|exact H]|].
    intros [H|[_ H]]; [discriminate H|exact H].
Qed.

Lemma delegates_after_delegation (t : QuadTree) (cs' : list QuadTree) :
  let t1 := if (List.length (children t) =? 0)%nat then subdivide t else t in
  List.length cs' = List.length (children t1) ->
  delegates (Node (bounds t1) (maxItems t1) (depth t1) (points t1) cs') = cs'.
Proof.
  intros t1 Hlen. unfold delegates. cbn [children].
  destruct cs' as [|c' cs']; [|reflexivity].
  assert (Hd : depth t1 = 0%nat).
  { subst t1. destruct t as [b m d ps [|c cs]]; [|discriminate Hlen].
    cbn [children List.length Nat.eqb] in *. unfold subdivide in *.
    cbn [children depth List.length Nat.ltb Nat.leb orb] in *.
    destruct d as [|d]; [reflexivity|discriminate Hlen]. }
  cbn [List.length Nat.eqb]. unfold subdivide.
  cbn [children depth List.length Nat.ltb Nat.leb orb]. rewrite Hd. reflexivity.
Qed.

Lemma rejected_after_insert_fuel (p q : Point) (n : nat) :
  forall t : QuadTree,
    fst (insert p t) = false -> fst (insert p (snd (insert_fuel n q t))) = false.
Proof.
  induction n as [|n IH]; intros t Hp; simpl; [exact Hp|].
  destruct (negb (intersects q (bounds t))); [exact Hp|].
  destruct ((List.length (points t) <? maxItems t)%nat && (0 <? depth t)%nat) eqn:Hroom.
  - apply insert_rejects_iff in Hp. destruct Hp as [Hp|[Hp _]]; [|congruence].
    apply insert_rejects_iff. left. exact Hp.
  - apply insert_rejects_iff in Hp. apply insert_rejects_iff.
    destruct Hp as [Hp|[_ Hp]].
    { left. destruct (some_insert _ _) as [r cs']. simpl.
      destruct (List.length (children t) =? 0)%nat; [|exact Hp].
      unfold subdivide.
      destruct ((0 <? List.length (children t))%nat || (depth t =? 0)%nat); exact Hp. }
    right. unfold delegates in Hp.
    pose proof (delegates_after_delegation t) as Hdel. cbv zeta in Hdel.
    remember (if (List.length (children t) =? 0)%nat then subdivide t else t) as t1 eqn:Ht1.
    assert (F1 : points t1 = points t /\ maxItems t1 = maxItems t /\ depth t1 = depth t).
    { subst t1. destruct (List.length (children t) =? 0)%nat; [|auto].
      unfold subdivide.
      destruct ((0 <? List.length (children t))%nat || (depth t =? 0)%nat); auto. }
    clear Ht1.
    pose proof (some_insert_Forall2
                  (fun c c' => fst (insert p c) = false -> fst (insert p c') = false)
                  (insert_fuel n q) (children t1) (fun c H => H) (fun c _ => IH c)) as H2.
    destruct (some_insert (insert_fuel n q) (children t1)) as [r cs']. cbn [snd] in *.
    rewrite (Hdel cs') by (symmetry; apply (Forall2_length H2)).
    cbn [points maxItems depth]. destruct F1 as (-> & -> & ->). split; [exact Hroom|].
    rewrite Forall_forall in Hp. apply Forall_forall. intros c' Hc'.
    destruct (Forall2_pick_right _ _ _ _ H2 Hc') as [c [Hc Hcc']]. apply Hcc'. now apply Hp.
Qed.

(** X17: rejection is final.  Once [insert] has returned false for a point, it
    returns false for this point again after any further inserts into the
    tree, of this point or of others. *)
Theorem rejected_point_stays_rejected (p : Point) (t : QuadTree) (qs : list Point) :
  fst (insert p t) = false -> fst (insert p (insert_all qs t)) = false.
Proof.
  unfold insert_all. revert t. induction qs as [|q qs IH]; intros t Hp; simpl; [exact Hp|].
  apply IH. unfold insert at 2. now apply rejected_after_insert_fuel.
Qed.

Lemma rejected_point_stays_rejected_witness :
  fst (insert (mkPoint 601 400)
              (insert_all [mkPoint 10 10; mkPoint 20 20] (new_QuadTree quadTreeBounds 1 8)))
  = false.
Proof.
  apply (rejected_point_stays_rejected (mkPoint 601 400) (new_QuadTree quadTreeBounds 1 8)
           [mkPoint 10 10; mkPoint 20 20]).
  reflexivity.
Defined.

Lemma delegates_ind (P : QuadTree -> Prop) :
  (forall t, (forall c, In c (delegates t) -> P c) -> P t) -> forall t, P t.
Proof.
  intros H t. remember (weight t) as w eqn:Hw. revert t Hw.
  induction w as [w IH] using lt_wf_ind. intros t ->.
  apply H. intros c Hc. apply (IH (weight c)); [now apply weight_delegates|reflexivity].
Qed.

Lemma some_insert_all_refuse (f : QuadTree -> bool * QuadTree) (cs : list QuadTree) :
  Forall (fun c => f c = (false, c)) cs -> some_insert f cs = (false, cs).
Proof.
  induction 1 as [|c cs Hc _ IH]; simpl; [reflexivity|]. now rewrite Hc, IH.
Qed.

Lemma insert_fields (p : Point) (t : QuadTree) :
  bounds (snd (insert p t)) = bounds t /\
  maxItems (snd (insert p t)) = maxItems t /\
  depth (snd (insert p t)) = depth t.
Proof.
  destruct (insert_fuel_kept (S (weight t)) p t) as (B & M & D & _).
  unfold insert. auto.
Qed.

Lemma insert_delegating (p : Point) (t : QuadTree) :
  intersects p (bounds t) = true ->
  (List.length (points t) <? maxItems t)%nat && (0 <? depth t)%nat = false ->
  insert p t
  = (fst (some_insert (insert p) (delegates t)),
     Node (bounds t) (maxItems t) (depth t) (points t)
          (snd (some_insert (insert p) (delegates t)))).
Proof.
  intros Hin Hroom. rewrite insert_eq, Hin, Hroom. cbn [negb]. cbv zeta. unfold delegates.
  destruct (some_insert (insert p) _) as [r cs']. cbn [fst snd].
  destruct (List.length (children t) =? 0)%nat; [|reflexivity].
  unfold subdivide.
  destruct ((0 <? List.length (children t))%nat || (depth t =? 0)%nat); reflexivity.
Qed.

(** X18: a rejected insert, repeated on the tree it left behind, is rejected
    again and changes nothing: the children that the first call may have
    created are there, and no further ones are made. *)
Theorem rejected_insert_is_stable (p : Point) (t t' : QuadTree) :
  insert p t = (false, t') -> insert p t' = (false, t').
Proof.
  revert t'. induction t as [t IH] using delegates_ind. intros t' H.
  rewrite insert_eq in H.
  destruct (intersects p (bounds t)) eqn:Hin; cbn [negb] in H.
  2:{ injection H as <-. now apply insert_outside. }
  destruct ((List.length (points t) <? maxItems t)%nat && (0 <? depth t)%nat) eqn:Hroom;
    [discriminate H|].
  cbv zeta in H. fold (delegates t) in H.
  pose proof (delegates_after_delegation t) as Hdel. cbv zeta in Hdel.
  remember (if (List.length (children t) =? 0)%nat then subdivide t else t) as t1 eqn:Ht1.
  assert (F1 : bounds t1 = bounds t /\ points t1 = points t /\
               maxItems t1 = maxItems t /\ depth t1 = depth t).
  { subst t1. destruct (List.length (children t) =? 0)%nat; [|auto].
    unfold subdivide.
    destruct ((0 <? List.length (children t))%nat || (depth t =? 0)%nat); auto. }
  assert (Hd : delegates t = children t1) by (unfold delegates; now rewrite Ht1).
  clear Ht1. rewrite Hd in *.
  destruct (some_insert (insert p) (children t1)) as [r cs'] eqn:Hs.
  injection H as -> <-. apply some_insert_false in Hs.
  assert (Hst : Forall (fun c' => insert p c' = (false, c')) cs').
  { clear -Hs IH. induction Hs as [|c c' l l' Hc _ IHl]; constructor.
    - apply (IH c); [now left|exact Hc].
    - apply IHl. intros c0 Hc0. apply IH. now right. }
  specialize (Hdel cs' (eq_sym (Forall2_length Hs))).
  destruct F1 as (B & Pt & M & D). rewrite B, Pt, M, D in *.
  rewrite insert_delegating by (cbn [bounds points maxItems depth]; assumption).
  rewrite Hdel, (some_insert_all_refuse _ _ Hst). reflexivity.
Qed.

Lemma rejected_insert_is_stable_witness :
  let t' := snd (insert (mkPoint 10 10)
                        (snd (insert (mkPoint 10 10) (new_QuadTree quadTreeBounds 1 1)))) in
  insert (mkPoint 10 10) t' = (false, t').
Proof.
  intros t'.
  apply (rejected_insert_is_stable (mkPoint 10 10)
           (snd (insert (mkPoint 10 10) (new_QuadTree quadTreeBounds 1 1))) t').
  vm_compute. reflexivity.
Defined.

Lemma built_tree_height_bounded_witness :
  (height (insert_all [mkPoint 10 10; mkPoint 10 10] (new_QuadTree quadTreeBounds 1 8)) <= 9)%nat
  /\ (depth (insert_all [mkPoint 10 10; mkPoint 10 10] (new_QuadTree quadTreeBounds 1 8)) <= 8)%nat.
Proof.
  destruct (built_tree_height_bounded quadTreeBounds 1 8 [mkPoint 10 10; mkPoint 10 10])
    as [H1 H2].
  split; [exact H1|]. apply H2. apply node_self.
Defined.
